(** * The translation service of the portfolio front-end

    A shallow embedding of [TranslationService]
    (src/app/core/services/translation.service.ts) and of the constants of
    src/app/core/models/translation.model.ts.

    The service holds three signals (current language, translations, loading
    flag), reads and writes one key of [localStorage], and loads translation
    files over HTTP.  Its methods are [async] functions: they run
    synchronously up to the first [await] on an outstanding request and are
    resumed with the response.  The embedding keeps this shape: an
    asynchronous computation maps a world to a [Run], which is either
    settled or suspended on one HTTP request together with its
    continuation.  An [await] on a promise that is settled already gives
    the caller a turn but leaves nothing for the service to do afterwards;
    only the outstanding request is a suspension point here. *)

From Stdlib Require Import String.
From stdpp Require Import gmap strings list.

Local Open Scope string_scope.
Local Open Scope list_scope.

(** ** Data *)

(** [Translations] is a JSON object read as a map from keys to texts. *)
Abbreviation Translations := (gmap string string).

(** [export const SUPPORTED_LANGUAGES = ['de', 'en'] as const;]
    The type [Language] is erased at run time: a value of that type is a
    string, and the casts [as Language] of the service check nothing. *)
Definition SUPPORTED_LANGUAGES : list string := ["de"; "en"].

(** [Array.prototype.includes] on an array of strings. *)
Definition includes (l : list string) (x : string) : bool :=
  existsb (String.eqb x) l.

(** [String.prototype.slice(0, n)]: the first [n] characters, fewer when the
    string is shorter. *)
Definition slice_prefix (n : nat) (s : string) : string :=
  String.substring 0 n s.

(** What the HTTP client rejects with: the three ways a request for a
    translation file can go wrong. *)
Inductive HttpFailure : Type :=
| NetworkError
| NonSuccessStatus (status : N)
| MalformedContent.

Inductive HttpResponse : Type :=
| Ok (body : Translations)
| Failed (error : HttpFailure).

(** Every access to the outside and every write of a signal leaves a mark,
    in the order of execution. *)
Inductive Effect : Type :=
| StorageGetItem (key : string)
| StorageSetItem (key value : string)
| NavigatorLanguageRead
| SetCurrentLanguage (lang : string)
| SetTranslations (t : Translations)
| SetIsLoading (b : bool)
| HttpGet (url : string)
| ConsoleError (message : string) (error : HttpFailure).

(** The browser side: the key-value store and the record of effects. *)
Record Ambient : Type := {
  localStorage : gmap string string;
  effects : list Effect
}.

(** The service: its three signals, and the ambient it runs in. *)
Record World : Type := {
  currentLanguage : string;
  translations : Translations;
  isLoading : bool;
  ambient : Ambient
}.

Definition record (e : Effect) (amb : Ambient) : Ambient :=
  {| localStorage := localStorage amb; effects := effects amb ++ [e] |}.

(** Projections of the record of effects. *)
Definition fetches (log : list Effect) : list string :=
  omap (λ e, match e with HttpGet url => Some url | _ => None end) log.

Definition storage_writes (log : list Effect) : list (string * string) :=
  omap (λ e, match e with StorageSetItem k v => Some (k, v) | _ => None end) log.

Definition storage_reads (log : list Effect) : list string :=
  omap (λ e, match e with StorageGetItem k => Some k | _ => None end) log.

Definition locale_reads (log : list Effect) : list unit :=
  omap (λ e, match e with NavigatorLanguageRead => Some tt | _ => None end) log.

Definition loading_writes (log : list Effect) : list bool :=
  omap (λ e, match e with SetIsLoading b => Some b | _ => None end) log.

(** ** Asynchronous computations *)

Inductive Completion (A : Type) : Type :=
| Returned (a : A)
| Thrown (error : HttpFailure).
Arguments Returned {A} a.
Arguments Thrown {A} error.

(** [Settled w c]: the computation is over in world [w].
    [Suspended w url k]: it awaits the response to the request for [url],
    issued in [w]; [k] resumes it with the response, in the world of that
    later moment. *)
Inductive Run (A : Type) : Type :=
| Settled (w : World) (c : Completion A)
| Suspended (w : World) (url : string) (k : HttpResponse → World → Run A).
Arguments Settled {A} w c.
Arguments Suspended {A} w url k.

Definition Async (A : Type) : Type := World → Run A.

Fixpoint bind_run {A B} (r : Run A) (f : A → Async B) : Run B :=
  match r with
  | Settled w (Returned a) => f a w
  | Settled w (Thrown e) => Settled w (Thrown e)
  | Suspended w url k => Suspended w url (λ resp w', bind_run (k resp w') f)
  end.

#[global] Instance async_ret : MRet Async := λ A a w, Settled w (Returned a).
#[global] Instance async_bind : MBind Async := λ A B f m w, bind_run (m w) f.

(** [try { body } catch (error) { handler error }] *)
Fixpoint catch_run {A} (r : Run A) (handler : HttpFailure → Async A) : Run A :=
  match r with
  | Settled w (Returned a) => Settled w (Returned a)
  | Settled w (Thrown e) => handler e w
  | Suspended w url k => Suspended w url (λ resp w', catch_run (k resp w') handler)
  end.

Definition try_catch {A} (body : Async A) (handler : HttpFailure → Async A) : Async A :=
  λ w, catch_run (body w) handler.

(** [try { body } finally { finalizer }]: the finalizer runs however the
    body completes, and the completion of the body stands unless the
    finalizer throws. *)
Fixpoint finally_run {A} (r : Run A) (finalizer : Async unit) : Run A :=
  match r with
  | Settled w c => bind_run (finalizer w) (λ _ w', Settled w' c)
  | Suspended w url k => Suspended w url (λ resp w', finally_run (k resp w') finalizer)
  end.

Definition try_finally {A} (body : Async A) (finalizer : Async unit) : Async A :=
  λ w, finally_run (body w) finalizer.

(** Awaiting a promise to the end when nothing else runs in between: every
    request is answered by [http] and the computation resumed at once. *)
Fixpoint complete {A} (http : string → HttpResponse) (r : Run A) : World * Completion A :=
  match r with
  | Settled w c => (w, c)
  | Suspended w url k => complete http (k (http url) w)
  end.

(** ** Primitive actions *)

(** Reading a signal, [this._sig()]. *)
Definition read {A} (f : World → A) : Async A := λ w, Settled w (Returned (f w)).

Definition perform (e : Effect) (w : World) : World :=
  {| currentLanguage := currentLanguage w; translations := translations w;
     isLoading := isLoading w; ambient := record e (ambient w) |}.

(** [this._currentLanguage.set(lang)] *)
Definition set_currentLanguage (lang : string) : Async unit := λ w,
  Settled (perform (SetCurrentLanguage lang)
             {| currentLanguage := lang; translations := translations w;
                isLoading := isLoading w; ambient := ambient w |})
          (Returned tt).

(** [this._translations.set(t)] *)
Definition set_translations (t : Translations) : Async unit := λ w,
  Settled (perform (SetTranslations t)
             {| currentLanguage := currentLanguage w; translations := t;
                isLoading := isLoading w; ambient := ambient w |})
          (Returned tt).

(** [this._isLoading.set(b)] *)
Definition set_isLoading (b : bool) : Async unit := λ w,
  Settled (perform (SetIsLoading b)
             {| currentLanguage := currentLanguage w; translations := translations w;
                isLoading := b; ambient := ambient w |})
          (Returned tt).

(** [localStorage.getItem(key)] *)
Definition localStorage_getItem (key : string) (amb : Ambient) : option string * Ambient :=
  (localStorage amb !! key, record (StorageGetItem key) amb).

(** [localStorage.setItem(key, value)] *)
Definition localStorage_setItem (key value : string) : Async unit := λ w,
  Settled {| currentLanguage := currentLanguage w; translations := translations w;
             isLoading := isLoading w;
             ambient := {| localStorage := <[key := value]> (localStorage (ambient w));
                           effects := effects (ambient w) ++ [StorageSetItem key value] |} |}
          (Returned tt).

(** [await firstValueFrom(this.http.get<Translations>(url))]: the request
    goes out, the function is suspended, and it is resumed with the body or
    with the failure thrown. *)
Definition http_get (url : string) : Async Translations := λ w,
  Suspended (perform (HttpGet url) w) url
    (λ resp w', match resp with
                | Ok body => Settled w' (Returned body)
                | Failed e => Settled w' (Thrown e)
                end).

(** [console.error(message, error)] *)
Definition console_error (message : string) (e : HttpFailure) : Async unit := λ w,
  Settled (perform (ConsoleError message e) w) (Returned tt).

(** ** The service *)

Section TranslationService.

(** [isPlatformBrowser(this.platformId)] *)
Variable isBrowser : bool.
(** [navigator.language] *)
Variable navigator_language : string.
(** [import defaultTranslations from '../../../../public/i18n/de.json']:
    the bundled German translations, whatever the file holds. *)
Variable defaultTranslations : Translations.

(** [`/i18n/${lang}.json`] *)
Definition i18n_url (lang : string) : string := "/i18n/" +:+ lang +:+ ".json".

Definition load_error_message (lang : string) : string :=
  "Error loading translations for language '" +:+ lang +:+ "':".

(** [private async loadTranslations(lang: Language): Promise<void>] *)
Definition loadTranslations (lang : string) : Async unit :=
  if String.eqb lang "de" then
    set_translations defaultTranslations
  else
    set_isLoading true;;
    try_finally
      (try_catch
         (translations ← http_get (i18n_url lang);
          set_translations translations)
         (λ error,
            console_error (load_error_message lang) error;;
            set_translations defaultTranslations))
      (set_isLoading false).

(** [async setLanguage(lang: Language): Promise<void>] *)
Definition setLanguage (lang : string) : Async unit :=
  current ← read currentLanguage;
  if String.eqb lang current then
    mret tt
  else
    set_currentLanguage lang;;
    (if isBrowser then localStorage_setItem "language" lang else mret tt);;
    loadTranslations lang.

(** [async toggleLanguage(): Promise<void>] *)
Definition toggleLanguage : Async unit :=
  current ← read currentLanguage;
  let newLang := if String.eqb current "de" then "en" else "de" in
  setLanguage newLang.

(** [private getInitialLanguage(): Language].  It runs while the fields
    are initialised, before any signal exists, hence on the ambient.
    [if (stored)] holds for a string that is present and not empty. *)
Definition getInitialLanguage (amb : Ambient) : string * Ambient :=
  if negb isBrowser then
    ("de", amb)
  else
    let '(stored, amb1) := localStorage_getItem "language" amb in
    let from_locale :=
      let amb2 := record NavigatorLanguageRead amb1 in
      let browserLang := slice_prefix 2 navigator_language in
      if includes SUPPORTED_LANGUAGES browserLang then (browserLang, amb2)
      else ("de", amb2) in
    match stored with
    | Some s => if String.eqb s "" then from_locale else (s, amb1)
    | None => from_locale
    end.

(** The field initialisers and the constructor: the signals start at the
    initial language, the default translations and [false], and the
    constructor calls [loadTranslations] without awaiting it. *)
Definition new_TranslationService (amb : Ambient) : Run unit :=
  let '(lang, amb1) := getInitialLanguage amb in
  loadTranslations lang
    {| currentLanguage := lang; translations := defaultTranslations;
       isLoading := false; ambient := amb1 |}.

End TranslationService.

(** ** Vocabulary of the statements *)

(** The world in which [setLanguage] starts the load of a new language:
    the signal is written, then the store when there is one. *)
Definition selected (isBrowser : bool) (lang : string) (w : World) : World :=
  {| currentLanguage := lang;
     translations := translations w;
     isLoading := isLoading w;
     ambient :=
       if isBrowser then
         {| localStorage := <["language" := lang]> (localStorage (ambient w));
            effects := effects (ambient w)
                       ++ [SetCurrentLanguage lang; StorageSetItem "language" lang] |}
       else
         {| localStorage := localStorage (ambient w);
            effects := effects (ambient w) ++ [SetCurrentLanguage lang] |} |}.

(** The translations a finished load of [lang] leaves behind when the
    requests are answered by [http]. *)
Definition loaded_bundle (defaultTranslations : Translations)
    (http : string → HttpResponse) (lang : string) : Translations :=
  if String.eqb lang "de" then defaultTranslations
  else match http (i18n_url lang) with
       | Ok body => body
       | Failed _ => defaultTranslations
       end.

(** [await service.toggleLanguage(); await service.toggleLanguage();]
    with the requests of the first call answered by [http1] and those of
    the second by [http2]. *)
Definition toggle_twice (isBrowser : bool) (defaultTranslations : Translations)
    (http1 http2 : string → HttpResponse) (w : World) : World * Completion unit :=
  match complete http1 (toggleLanguage isBrowser defaultTranslations w) with
  | (w1, Returned _) => complete http2 (toggleLanguage isBrowser defaultTranslations w1)
  | (w1, Thrown e) => (w1, Thrown e)
  end.

(** Sample data for concrete runs. *)
Definition sample_de : Translations := {[ "placeholder" := "Platzhalter" ]}.
Definition sample_en : Translations := {[ "placeholder" := "Placeholder" ]}.

Definition fresh_browser : Ambient := {| localStorage := ∅; effects := [] |}.

Definition german_service : World :=
  {| currentLanguage := "de"; translations := sample_de; isLoading := false;
     ambient := fresh_browser |}.

Definition http_up : string → HttpResponse := λ _, Ok sample_en.
Definition http_down : string → HttpResponse := λ _, Failed (NonSuccessStatus 404).

Definition english_service : World :=
  {| currentLanguage := "en"; translations := sample_en; isLoading := false;
     ambient := {| localStorage := {[ "language" := "en" ]}; effects := [] |} |}.

(** ** The callers *)

(** [TestComponent.toggleLanguage(): void]
    (src/app/features/test/test.component.ts): the click handler calls the
    service and drops the promise, so a second click may come while the
    first call is still waiting. *)
Definition TestComponent_toggleLanguage (isBrowser : bool)
    (defaultTranslations : Translations) : Async unit :=
  toggleLanguage isBrowser defaultTranslations.

(** The world an observer finds when a call hands control back: the final
    one if the call is settled, the one with the request out otherwise. *)
Definition world_of {A} (r : Run A) : World :=
  match r with
  | Settled w _ => w
  | Suspended w _ _ => w
  end.

(** The two public operations, and a sequence of them in which every call
    is awaited before the next, each with the responses it meets. *)
Inductive Call : Type :=
| CallSetLanguage (lang : string)
| CallToggleLanguage.

Definition call (isBrowser : bool) (defaultTranslations : Translations)
    (c : Call) : Async unit :=
  match c with
  | CallSetLanguage lang => setLanguage isBrowser defaultTranslations lang
  | CallToggleLanguage => toggleLanguage isBrowser defaultTranslations
  end.

Fixpoint session (isBrowser : bool) (defaultTranslations : Translations)
    (calls : list (Call * (string → HttpResponse))) (w : World)
    : World * Completion unit :=
  match calls with
  | [] => (w, Returned tt)
  | (c, http) :: rest =>
      match complete http (call isBrowser defaultTranslations c w) with
      | (w1, Returned _) => session isBrowser defaultTranslations rest w1
      | (w1, Thrown e) => (w1, Thrown e)
      end
  end.

(** The language a call asks for. *)
Definition requested (c : Call) (w : World) : string :=
  match c with
  | CallSetLanguage lang => lang
  | CallToggleLanguage => if String.eqb (currentLanguage w) "de" then "en" else "de"
  end.

Definition console_errors (log : list Effect) : list (string * HttpFailure) :=
  omap (λ e, match e with ConsoleError m err => Some (m, err) | _ => None end) log.

(** The service between two calls: no load is under way, and German is
    never shown with anything but the bundled translations. *)
Definition at_rest (defaultTranslations : Translations) (w : World) : Prop :=
  isLoading w = false
  ∧ (currentLanguage w = "de" → translations w = defaultTranslations).

(** The store holds the current language. *)
Definition remembered (w : World) : Prop :=
  localStorage (ambient w) !! "language" = Some (currentLanguage w).

(** Every [setLanguage] of the sequence is given a supported language. *)
Definition well_typed_calls (calls : list (Call * (string → HttpResponse))) : Prop :=
  Forall (λ c, match fst c with
               | CallSetLanguage lang => includes SUPPORTED_LANGUAGES lang = true
               | CallToggleLanguage => True
               end) calls.

(** ** Equations of the service *)

(** Unfolds the combinators and the primitive actions, so that a run of the
    service computes. *)
Ltac run_service :=
  unfold mbind, mret, async_bind, async_ret, try_finally, try_catch,
    http_get, set_isLoading, set_translations, set_currentLanguage,
    console_error, localStorage_setItem, read, perform, record;
  cbn.

Section Equations.

Variable isBrowser : bool.
Variable defaultTranslations : Translations.

Lemma omap_snoc {A B} (f : A → option B) (l : list A) (x : A) :
  f x = None → omap f (l ++ [x]) = omap f l.
Proof.
  intros Hx. rewrite omap_app. simpl. rewrite Hx. simpl. apply app_nil_r.
Qed.

(** The bundled language is loaded on the spot. *)
Lemma loadTranslations_de (w : World) :
  loadTranslations defaultTranslations "de" w
  = Settled
      {| currentLanguage := currentLanguage w;
         translations := defaultTranslations;
         isLoading := isLoading w;
         ambient := record (SetTranslations defaultTranslations) (ambient w) |}
      (Returned tt).
Proof. reflexivity. Qed.

(** Every other language raises the loading flag, sends the request and
    waits; each of the two ways the wait can end lowers the flag. *)
Lemma loadTranslations_remote (lang : string) (w : World) :
  lang ≠ "de" →
  ∃ k,
    loadTranslations defaultTranslations lang w
    = Suspended
        {| currentLanguage := currentLanguage w;
           translations := translations w;
           isLoading := true;
           ambient :=
             {| localStorage := localStorage (ambient w);
                effects := effects (ambient w)
                           ++ [SetIsLoading true; HttpGet (i18n_url lang)] |} |}
        (i18n_url lang) k
    ∧ (∀ body w',
         k (Ok body) w'
         = Settled
             {| currentLanguage := currentLanguage w';
                translations := body;
                isLoading := false;
                ambient :=
                  {| localStorage := localStorage (ambient w');
                     effects := effects (ambient w')
                                ++ [SetTranslations body; SetIsLoading false] |} |}
             (Returned tt))
    ∧ (∀ error w',
         k (Failed error) w'
         = Settled
             {| currentLanguage := currentLanguage w';
                translations := defaultTranslations;
                isLoading := false;
                ambient :=
                  {| localStorage := localStorage (ambient w');
                     effects := effects (ambient w')
                                ++ [ConsoleError (load_error_message lang) error;
                                    SetTranslations defaultTranslations;
                                    SetIsLoading false] |} |}
             (Returned tt)).
Proof.
  intros Hde. apply String.eqb_neq in Hde.
  unfold loadTranslations. rewrite Hde.
  eexists. split; [| split].
  - run_service. rewrite <- app_assoc. reflexivity.
  - intros body w'. cbn. rewrite <- app_assoc. reflexivity.
  - intros error w'. cbn. rewrite <- !app_assoc. reflexivity.
Qed.

Lemma setLanguage_same (lang : string) (w : World) :
  lang = currentLanguage w →
  setLanguage isBrowser defaultTranslations lang w = Settled w (Returned tt).
Proof.
  intros ->. unfold setLanguage. run_service.
  rewrite String.eqb_refl. reflexivity.
Qed.

Lemma setLanguage_new (lang : string) (w : World) :
  lang ≠ currentLanguage w →
  setLanguage isBrowser defaultTranslations lang w
  = loadTranslations defaultTranslations lang (selected isBrowser lang w).
Proof.
  intros Hne. apply String.eqb_neq in Hne.
  unfold setLanguage. run_service. rewrite Hne. unfold selected.
  destruct isBrowser; cbn; rewrite <- ?app_assoc; reflexivity.
Qed.

(** A call with a new language always settles once its request, if any,
    is answered, and it never throws. *)
Lemma setLanguage_new_completes (http : string → HttpResponse)
    (lang : string) (w : World) :
  lang ≠ currentLanguage w →
  ∃ w',
    complete http (setLanguage isBrowser defaultTranslations lang w)
    = (w', Returned tt)
    ∧ currentLanguage w' = lang
    ∧ translations w' = loaded_bundle defaultTranslations http lang
    ∧ isLoading w' = (if String.eqb lang "de" then isLoading w else false).
Proof.
  intros Hnew. rewrite (setLanguage_new _ _ Hnew). unfold loaded_bundle.
  destruct (String.eqb_spec lang "de") as [-> | Hde].
  - rewrite loadTranslations_de. cbn. eexists. repeat split.
  - destruct (loadTranslations_remote lang (selected isBrowser lang w) Hde)
      as (k & Hk & Hok & Hfailed).
    rewrite Hk. cbn [complete].
    destruct (http (i18n_url lang)) as [body | error].
    + rewrite Hok. cbn. eexists. repeat split.
    + rewrite Hfailed. cbn. eexists. repeat split.
Qed.

(** A call is left waiting exactly when the language is new and not the
    bundled one. *)
Lemma setLanguage_suspended (lang : string) (w ws : World) (url : string)
    (k : HttpResponse → World → Run unit) :
  setLanguage isBrowser defaultTranslations lang w = Suspended ws url k →
  lang ≠ currentLanguage w ∧ lang ≠ "de".
Proof.
  intros Hrun.
  destruct (decide (lang = currentLanguage w)) as [Hsame | Hnew].
  { rewrite (setLanguage_same _ _ Hsame) in Hrun. discriminate. }
  split; [exact Hnew |].
  intros ->. rewrite (setLanguage_new _ _ Hnew), loadTranslations_de in Hrun.
  discriminate.
Qed.

(** A toggle always selects a language that is not the current one, so it
    runs [setLanguage] to the end. *)
Lemma toggleLanguage_completes (http : string → HttpResponse) (w : World) :
  ∃ w',
    complete http (toggleLanguage isBrowser defaultTranslations w)
    = (w', Returned tt)
    ∧ currentLanguage w'
      = (if String.eqb (currentLanguage w) "de" then "en" else "de")
    ∧ translations w' = loaded_bundle defaultTranslations http (currentLanguage w').
Proof.
  unfold toggleLanguage. run_service.
  destruct (String.eqb_spec (currentLanguage w) "de") as [Hde | Hother].
  - assert (Hnew : "en" ≠ currentLanguage w) by (rewrite Hde; discriminate).
    destruct (setLanguage_new_completes http "en" w Hnew)
      as (w' & Hrun & Hlang & Hbundle & _).
    exists w'. rewrite Hlang. auto.
  - assert (Hnew : "de" ≠ currentLanguage w) by congruence.
    destruct (setLanguage_new_completes http "de" w Hnew)
      as (w' & Hrun & Hlang & Hbundle & _).
    exists w'. rewrite Hlang. auto.
Qed.

Lemma sample_en_is_not_sample_de : sample_en ≠ sample_de.
Proof.
  intros Hsame.
  apply (f_equal (λ t : Translations, t !! "placeholder")) in Hsame.
  unfold sample_en, sample_de in Hsame.
  rewrite !lookup_singleton_eq in Hsame. discriminate.
Qed.

Lemma includes_supported (lang : string) :
  includes SUPPORTED_LANGUAGES lang = true → lang = "de" ∨ lang = "en".
Proof.
  unfold includes, SUPPORTED_LANGUAGES. cbn [existsb].
  destruct (String.eqb_spec lang "de") as [-> | _]; [auto |].
  destruct (String.eqb_spec lang "en") as [-> | _]; [auto |].
  discriminate.
Qed.

End Equations.

(** ** Switching the language *)

(** C2: for every supported language code [L] and every starting state,
    the promise returned by [setLanguage(L)] resolves (it is fulfilled, not
    rejected) and the current language is then [L]. *)
Theorem setLanguage_current_is_requested (isBrowser : bool)
    (defaultTranslations : Translations) (http : string → HttpResponse)
    (L : string) (w : World) :
  includes SUPPORTED_LANGUAGES L = true →
  ∃ w',
    complete http (setLanguage isBrowser defaultTranslations L w) = (w', Returned tt)
    ∧ currentLanguage w' = L.
Proof.
  intros _.
  destruct (decide (L = currentLanguage w)) as [Hsame | Hnew].
  - rewrite (setLanguage_same _ _ _ _ Hsame). cbn. eauto.
  - destruct (setLanguage_new_completes isBrowser defaultTranslations http L w Hnew)
      as (w' & Hrun & Hlang & _).
    eauto.
Qed.

Lemma setLanguage_current_is_requested_witness :
  includes SUPPORTED_LANGUAGES "en" = true
  ∧ ∃ w',
      complete http_up (setLanguage true sample_de "en" german_service)
      = (w', Returned tt)
      ∧ currentLanguage w' = "en".
Proof.
  split; [reflexivity |].
  apply (setLanguage_current_is_requested true sample_de http_up "en" german_service).
  reflexivity.
Defined.

(** C3: for every state, [setLanguage] called with the current language
    does nothing.  The call settles at once in the very world it started
    in: the record of effects is the same, so there was no storage write
    and no request, and the current language, the translations and the
    loading flag are what they were. *)
Theorem setLanguage_current_is_noop (isBrowser : bool)
    (defaultTranslations : Translations) (w : World) :
  setLanguage isBrowser defaultTranslations (currentLanguage w) w
  = Settled w (Returned tt).
Proof. apply setLanguage_same. reflexivity. Qed.

(** C10: for every state, [toggleLanguage] goes to ['en'] exactly when the
    current language is ['de'] and to ['de'] in every other case; once the
    call has resolved the current language is that target, hence one of the
    supported languages, whatever string it was before. *)
Theorem toggleLanguage_target_supported (isBrowser : bool)
    (defaultTranslations : Translations) (http : string → HttpResponse)
    (w : World) :
  ∃ w',
    complete http (toggleLanguage isBrowser defaultTranslations w) = (w', Returned tt)
    ∧ currentLanguage w' = (if String.eqb (currentLanguage w) "de" then "en" else "de")
    ∧ includes SUPPORTED_LANGUAGES (currentLanguage w') = true.
Proof.
  destruct (toggleLanguage_completes isBrowser defaultTranslations http w)
    as (w' & Hrun & Hlang & _).
  exists w'. split; [exact Hrun |]. split; [exact Hlang |].
  rewrite Hlang. destruct (String.eqb (currentLanguage w) "de"); reflexivity.
Qed.

(** C4: when ['de'] is the language to load, [loadTranslations] settles
    without waiting, with the default translations in place; its only
    effect is the write of the translations signal, so no request is sent
    and the loading flag is not written.  Selecting ['de'] through
    [setLanguage] therefore settles at once, leaves the loading flag as it
    was, and adds neither a write of the flag nor a request to the record. *)
Theorem loadTranslations_fallback_is_synchronous (isBrowser : bool)
    (defaultTranslations : Translations) (w : World) :
  (∃ w',
     loadTranslations defaultTranslations "de" w = Settled w' (Returned tt)
     ∧ translations w' = defaultTranslations
     ∧ isLoading w' = isLoading w
     ∧ effects (ambient w')
       = effects (ambient w) ++ [SetTranslations defaultTranslations])
  ∧ (∃ w',
       setLanguage isBrowser defaultTranslations "de" w = Settled w' (Returned tt)
       ∧ isLoading w' = isLoading w
       ∧ loading_writes (effects (ambient w')) = loading_writes (effects (ambient w))
       ∧ fetches (effects (ambient w')) = fetches (effects (ambient w))).
Proof.
  split.
  - rewrite loadTranslations_de. eexists. repeat split.
  - destruct (decide ("de" = currentLanguage w)) as [Hsame | Hnew].
    + rewrite (setLanguage_same _ _ _ _ Hsame). eexists. repeat split.
    + rewrite (setLanguage_new _ _ _ _ Hnew), loadTranslations_de.
      eexists. split; [reflexivity |]. unfold loading_writes, fetches.
      destruct isBrowser; cbn; rewrite !omap_app; cbn;
        rewrite ?app_nil_r; repeat split.
Qed.

(** C5: let [L] be a supported language other than ['de'] and let the call
    [setLanguage(L)] send its request for the translations of [L] (the
    call is left waiting on it).  If the request fails, by a network error,
    a status that is not a success or a malformed body, the promise is
    fulfilled all the same: nothing is thrown to the caller, the
    translations are the default ones, the current language is still [L]
    and the loading flag is down. *)
Theorem setLanguage_failed_fetch_falls_back (isBrowser : bool)
    (defaultTranslations : Translations) (http : string → HttpResponse)
    (L : string) (w ws : World) (url : string)
    (k : HttpResponse → World → Run unit) (error : HttpFailure) :
  includes SUPPORTED_LANGUAGES L = true →
  L ≠ "de" →
  setLanguage isBrowser defaultTranslations L w = Suspended ws url k →
  http url = Failed error →
  ∃ w',
    complete http (setLanguage isBrowser defaultTranslations L w) = (w', Returned tt)
    ∧ translations w' = defaultTranslations
    ∧ currentLanguage w' = L
    ∧ isLoading w' = false.
Proof.
  intros _ Hde Hwaiting Hfailed.
  destruct (setLanguage_suspended _ _ _ _ _ _ _ Hwaiting) as [Hnew _].
  pose proof Hwaiting as Hrun.
  rewrite (setLanguage_new _ _ _ _ Hnew) in Hrun.
  destruct (loadTranslations_remote defaultTranslations L
              (selected isBrowser L w) Hde) as (k0 & Hk0 & _ & Hcatch).
  rewrite Hk0 in Hrun. injection Hrun as <- <- <-.
  rewrite Hwaiting. cbn [complete]. rewrite Hfailed, Hcatch. cbn.
  eexists. repeat split.
Qed.

Lemma setLanguage_failed_fetch_falls_back_witness :
  includes SUPPORTED_LANGUAGES "en" = true
  ∧ "en" ≠ "de"
  ∧ ∃ ws k,
      setLanguage true sample_de "en" german_service
      = Suspended ws "/i18n/en.json" k
      ∧ http_down "/i18n/en.json" = Failed (NonSuccessStatus 404)
      ∧ ∃ w',
          complete http_down (setLanguage true sample_de "en" german_service)
          = (w', Returned tt)
          ∧ translations w' = sample_de
          ∧ currentLanguage w' = "en"
          ∧ isLoading w' = false.
Proof.
  split; [reflexivity |]. split; [discriminate |].
  eexists. eexists. split; [reflexivity |]. split; [reflexivity |].
  eapply (setLanguage_failed_fetch_falls_back true sample_de http_down "en"
            german_service _ "/i18n/en.json" _ (NonSuccessStatus 404)).
  - reflexivity.
  - discriminate.
  - reflexivity.
  - reflexivity.
Defined.

(** C6: a call of [setLanguage] with a new language that has to be fetched
    stops at the point where the request has just been sent.  In the world
    of that point the current language is already the new one, and the
    record of the call reads: write of the current language, then the
    storage write (in a browser; there is none elsewhere), then the
    loading flag, then the request.  In a browser the store holds the new
    language at that point. *)
Theorem setLanguage_selects_before_fetch (isBrowser : bool)
    (defaultTranslations : Translations) (L : string) (w : World) :
  L ≠ currentLanguage w →
  L ≠ "de" →
  ∃ ws k,
    setLanguage isBrowser defaultTranslations L w = Suspended ws (i18n_url L) k
    ∧ currentLanguage ws = L
    ∧ effects (ambient ws)
      = effects (ambient w)
        ++ [SetCurrentLanguage L]
        ++ (if isBrowser then [StorageSetItem "language" L] else [])
        ++ [SetIsLoading true; HttpGet (i18n_url L)]
    ∧ localStorage (ambient ws)
      = (if isBrowser then <["language" := L]> (localStorage (ambient w))
         else localStorage (ambient w)).
Proof.
  intros Hnew Hde.
  rewrite (setLanguage_new _ _ _ _ Hnew).
  destruct (loadTranslations_remote defaultTranslations L
              (selected isBrowser L w) Hde) as (k & Hk & _).
  rewrite Hk. eexists. exists k. split; [reflexivity |].
  destruct isBrowser; cbn; rewrite <- ?app_assoc; repeat split.
Qed.

Lemma setLanguage_selects_before_fetch_witness :
  "en" ≠ currentLanguage german_service
  ∧ "en" ≠ "de"
  ∧ ∃ ws k,
      setLanguage true sample_de "en" german_service
      = Suspended ws (i18n_url "en") k
      ∧ currentLanguage ws = "en"
      ∧ effects (ambient ws)
        = effects (ambient german_service)
          ++ [SetCurrentLanguage "en"]
          ++ [StorageSetItem "language" "en"]
          ++ [SetIsLoading true; HttpGet (i18n_url "en")]
      ∧ localStorage (ambient ws)
        = <["language" := "en"]> (localStorage (ambient german_service)).
Proof.
  split; [discriminate |]. split; [discriminate |].
  apply (setLanguage_selects_before_fetch true sample_de "en" german_service);
    discriminate.
Defined.

(** ** Initialisation *)

(** In a browser a stored value that is present and not empty is the
    initial language as it stands; the store is read once and the locale
    not at all. *)
Lemma getInitialLanguage_stored (navigator_language : string) (amb : Ambient)
    (s : string) :
  localStorage amb !! "language" = Some s →
  s ≠ "" →
  getInitialLanguage true navigator_language amb
  = (s, record (StorageGetItem "language") amb).
Proof.
  intros Hstored Hfilled. apply String.eqb_neq in Hfilled.
  unfold getInitialLanguage, localStorage_getItem. cbn.
  rewrite Hstored, Hfilled. reflexivity.
Qed.

(** Without a usable stored value the locale decides. *)
Lemma getInitialLanguage_locale (navigator_language : string) (amb : Ambient) :
  localStorage amb !! "language" = None
  ∨ localStorage amb !! "language" = Some "" →
  getInitialLanguage true navigator_language amb
  = (let amb2 := record NavigatorLanguageRead (record (StorageGetItem "language") amb) in
     if includes SUPPORTED_LANGUAGES (slice_prefix 2 navigator_language)
     then (slice_prefix 2 navigator_language, amb2)
     else ("de", amb2)).
Proof.
  intros Hstored.
  unfold getInitialLanguage, localStorage_getItem.
  destruct Hstored as [Hnone | Hempty];
    [rewrite Hnone | rewrite Hempty]; reflexivity.
Qed.

(** C7: outside a browser the initial language is ['de'] whatever the
    locale and whatever the store holds, and neither is consulted: the
    ambient comes back untouched from [getInitialLanguage], and the record
    of the constructed service shows no read of the store and no read of
    the locale. *)
Theorem server_initialization_is_german (navigator_language : string)
    (defaultTranslations : Translations) (amb : Ambient) :
  getInitialLanguage false navigator_language amb = ("de", amb)
  ∧ ∃ w,
      new_TranslationService false navigator_language defaultTranslations amb
      = Settled w (Returned tt)
      ∧ currentLanguage w = "de"
      ∧ storage_reads (effects (ambient w)) = storage_reads (effects amb)
      ∧ locale_reads (effects (ambient w)) = locale_reads (effects amb).
Proof.
  split; [reflexivity |].
  unfold new_TranslationService.
  change (getInitialLanguage false navigator_language amb) with ("de", amb).
  cbv beta iota. rewrite loadTranslations_de.
  eexists. split; [reflexivity |]. cbn.
  unfold storage_reads, locale_reads. rewrite !omap_snoc by reflexivity.
  repeat split.
Qed.

(** C8: in a browser whose store has no language and whose locale starts
    with two characters that are not a supported language, the service
    starts in ['de'] with the default translations, settled, and its
    construction sends no request. *)
Theorem browser_initialization_unsupported_locale (navigator_language : string)
    (defaultTranslations : Translations) (amb : Ambient) :
  localStorage amb !! "language" = None →
  includes SUPPORTED_LANGUAGES (slice_prefix 2 navigator_language) = false →
  ∃ w,
    new_TranslationService true navigator_language defaultTranslations amb
    = Settled w (Returned tt)
    ∧ currentLanguage w = "de"
    ∧ translations w = defaultTranslations
    ∧ isLoading w = false
    ∧ fetches (effects (ambient w)) = fetches (effects amb).
Proof.
  intros Hstored Hlocale.
  unfold new_TranslationService.
  rewrite (getInitialLanguage_locale _ _ (or_introl Hstored)), Hlocale.
  cbv beta iota zeta. rewrite loadTranslations_de.
  eexists. split; [reflexivity |]. cbn.
  unfold fetches. rewrite !omap_snoc by reflexivity.
  repeat split.
Qed.

Lemma browser_initialization_unsupported_locale_witness :
  localStorage fresh_browser !! "language" = None
  ∧ includes SUPPORTED_LANGUAGES (slice_prefix 2 "fr-FR") = false
  ∧ ∃ w,
      new_TranslationService true "fr-FR" sample_de fresh_browser
      = Settled w (Returned tt)
      ∧ currentLanguage w = "de"
      ∧ translations w = sample_de
      ∧ isLoading w = false
      ∧ fetches (effects (ambient w)) = fetches (effects fresh_browser).
Proof.
  split; [reflexivity |]. split; [reflexivity |].
  apply (browser_initialization_unsupported_locale "fr-FR" sample_de fresh_browser);
    reflexivity.
Defined.

(** C1: a stored value outside the supported set becomes the current
    language.  With ["fr"] in the store of a browser, [getInitialLanguage]
    returns ["fr"], which [SUPPORTED_LANGUAGES] does not include, and the
    constructor goes on to request [/i18n/fr.json]; the locale, which the
    same function does check against [SUPPORTED_LANGUAGES], is not
    reached. *)
Theorem getInitialLanguage_accepts_unsupported_stored :
  let amb := {| localStorage := {[ "language" := "fr" ]}; effects := [] |} in
  includes SUPPORTED_LANGUAGES "fr" = false
  ∧ fst (getInitialLanguage true "de-DE" amb) = "fr"
  ∧ ∃ w k,
      new_TranslationService true "de-DE" sample_de amb
      = Suspended w "/i18n/fr.json" k
      ∧ currentLanguage w = "fr".
Proof.
  cbn zeta. split; [reflexivity |]. split.
  - rewrite (getInitialLanguage_stored "de-DE" _ "fr"); [reflexivity | | discriminate].
    cbn. apply lookup_singleton_eq.
  - unfold new_TranslationService.
    rewrite (getInitialLanguage_stored "de-DE" _ "fr");
      [| cbn; apply lookup_singleton_eq | discriminate].
    eexists. eexists. split; reflexivity.
Qed.

(** ** Toggling twice *)

(** C9, as stated, fails: a service that started in ['en'] while the
    translations could not be fetched holds the default translations; two
    toggles later the language is ['en'] again, but the second toggle has
    fetched the English translations, which are not the ones held at the
    start. *)
Lemma toggle_twice_changes_bundle :
  let w0 := fst (complete http_down
                   (new_TranslationService true "en-US" sample_de fresh_browser)) in
  let after := toggle_twice true sample_de http_up http_up w0 in
  includes SUPPORTED_LANGUAGES (currentLanguage w0) = true
  ∧ snd after = Returned tt
  ∧ currentLanguage (fst after) = currentLanguage w0
  ∧ translations w0 = sample_de
  ∧ translations (fst after) = sample_en
  ∧ translations (fst after) ≠ translations w0.
Proof.
  intros w0 after.
  assert (Hbefore : translations w0 = sample_de) by (vm_compute; reflexivity).
  assert (Hafter : translations (fst after) = sample_en) by (vm_compute; reflexivity).
  split; [vm_compute; reflexivity |].
  split; [vm_compute; reflexivity |].
  split; [vm_compute; reflexivity |].
  split; [exact Hbefore |]. split; [exact Hafter |].
  rewrite Hbefore, Hafter. apply sample_en_is_not_sample_de.
Qed.

(** C9, amended: from every state whose current language is supported, two
    toggles in a row, each awaited to the end, are both fulfilled and bring
    back the original current language.  The translations afterwards are
    those that the second toggle loads for that language: the default ones
    for ['de'], and for ['en'] the body its request returns, or the default
    ones when that request fails. *)
Theorem toggle_twice_restores_language (isBrowser : bool)
    (defaultTranslations : Translations) (http1 http2 : string → HttpResponse)
    (w : World) :
  includes SUPPORTED_LANGUAGES (currentLanguage w) = true →
  ∃ w2,
    toggle_twice isBrowser defaultTranslations http1 http2 w = (w2, Returned tt)
    ∧ currentLanguage w2 = currentLanguage w
    ∧ translations w2 = loaded_bundle defaultTranslations http2 (currentLanguage w).
Proof.
  intros Hsupported. apply includes_supported in Hsupported.
  unfold toggle_twice.
  destruct (toggleLanguage_completes isBrowser defaultTranslations http1 w)
    as (w1 & Hrun1 & Hlang1 & _).
  rewrite Hrun1.
  destruct (toggleLanguage_completes isBrowser defaultTranslations http2 w1)
    as (w2 & Hrun2 & Hlang2 & Hbundle2).
  exists w2. split; [exact Hrun2 |].
  assert (Hback : currentLanguage w2 = currentLanguage w).
  { rewrite Hlang2, Hlang1.
    destruct Hsupported as [Hde | Hen]; rewrite Hde || rewrite Hen; reflexivity. }
  split; [exact Hback |]. rewrite Hbundle2, Hback. reflexivity.
Qed.

Lemma toggle_twice_restores_language_witness :
  includes SUPPORTED_LANGUAGES (currentLanguage german_service) = true
  ∧ ∃ w2,
      toggle_twice true sample_de http_up http_down german_service
      = (w2, Returned tt)
      ∧ currentLanguage w2 = currentLanguage german_service
      ∧ translations w2
        = loaded_bundle sample_de http_down (currentLanguage german_service).
Proof.
  split; [reflexivity |].
  apply (toggle_twice_restores_language true sample_de http_up http_down
           german_service).
  reflexivity.
Defined.

(** ** The scenarios of the test suite *)

(** 'setLanguage should update signal and localStorage': while the request
    is out the flag is up; once it is answered the language, the
    translations, the store and the flag are as expected. *)
Example test_setLanguage_updates :
  (∃ ws k,
     setLanguage true sample_de "en" german_service = Suspended ws "/i18n/en.json" k
     ∧ isLoading ws = true)
  ∧ ∃ w',
      complete http_up (setLanguage true sample_de "en" german_service)
      = (w', Returned tt)
      ∧ currentLanguage w' = "en"
      ∧ translations w' = sample_en
      ∧ storage_writes (effects (ambient w')) = [("language", "en")]
      ∧ isLoading w' = false.
Proof.
  split.
  - eexists. eexists. split; reflexivity.
  - eexists. split; [reflexivity |]. repeat split.
Qed.

(** 'should use browser language if supported ("en")': the constructor
    leaves the request for the English translations outstanding. *)
Example test_browser_language_en :
  ∃ ws k,
    new_TranslationService true "en-US" sample_de fresh_browser
    = Suspended ws "/i18n/en.json" k
    ∧ currentLanguage ws = "en"
    ∧ fetches (effects (ambient ws)) = ["/i18n/en.json"].
Proof.
  unfold new_TranslationService.
  rewrite (getInitialLanguage_locale "en-US" fresh_browser)
    by (left; apply lookup_empty).
  eexists. eexists. split; [reflexivity |]. split; reflexivity.
Qed.

(** 'should fallback to default translations on HTTP error'. *)
Example test_http_error :
  ∃ w',
    complete http_down (setLanguage true sample_de "en" german_service)
    = (w', Returned tt)
    ∧ translations w' = sample_de
    ∧ currentLanguage w' = "en"
    ∧ isLoading w' = false.
Proof. eexists. split; [reflexivity |]. repeat split. Qed.

(** ** Complete runs of [setLanguage] *)

Section Runs.

Variable isBrowser : bool.
Variable defaultTranslations : Translations.

(** The three ways a call with a new language ends. *)
Lemma setLanguage_new_de (http : string → HttpResponse) (w : World) :
  "de" ≠ currentLanguage w →
  complete http (setLanguage isBrowser defaultTranslations "de" w)
  = ({| currentLanguage := "de";
        translations := defaultTranslations;
        isLoading := isLoading w;
        ambient :=
          {| localStorage := localStorage (ambient (selected isBrowser "de" w));
             effects := effects (ambient (selected isBrowser "de" w))
                        ++ [SetTranslations defaultTranslations] |} |},
     Returned tt).
Proof.
  intros Hnew. rewrite (setLanguage_new _ _ _ _ Hnew), loadTranslations_de.
  reflexivity.
Qed.

Lemma setLanguage_new_fetched (http : string → HttpResponse) (L : string)
    (w : World) (body : Translations) :
  L ≠ currentLanguage w →
  L ≠ "de" →
  http (i18n_url L) = Ok body →
  complete http (setLanguage isBrowser defaultTranslations L w)
  = ({| currentLanguage := L;
        translations := body;
        isLoading := false;
        ambient :=
          {| localStorage := localStorage (ambient (selected isBrowser L w));
             effects := effects (ambient (selected isBrowser L w))
                        ++ [SetIsLoading true; HttpGet (i18n_url L);
                            SetTranslations body; SetIsLoading false] |} |},
     Returned tt).
Proof.
  intros Hnew Hde Hok. rewrite (setLanguage_new _ _ _ _ Hnew).
  destruct (loadTranslations_remote defaultTranslations L
              (selected isBrowser L w) Hde) as (k & Hk & Hthen & _).
  rewrite Hk. cbn [complete]. rewrite Hok, Hthen. cbn.
  rewrite <- app_assoc. reflexivity.
Qed.

Lemma setLanguage_new_failed (http : string → HttpResponse) (L : string)
    (w : World) (error : HttpFailure) :
  L ≠ currentLanguage w →
  L ≠ "de" →
  http (i18n_url L) = Failed error →
  complete http (setLanguage isBrowser defaultTranslations L w)
  = ({| currentLanguage := L;
        translations := defaultTranslations;
        isLoading := false;
        ambient :=
          {| localStorage := localStorage (ambient (selected isBrowser L w));
             effects := effects (ambient (selected isBrowser L w))
                        ++ [SetIsLoading true; HttpGet (i18n_url L);
                            ConsoleError (load_error_message L) error;
                            SetTranslations defaultTranslations;
                            SetIsLoading false] |} |},
     Returned tt).
Proof.
  intros Hnew Hde Hfailed. rewrite (setLanguage_new _ _ _ _ Hnew).
  destruct (loadTranslations_remote defaultTranslations L
              (selected isBrowser L w) Hde) as (k & Hk & _ & Hcatch).
  rewrite Hk. cbn [complete]. rewrite Hfailed, Hcatch. cbn.
  rewrite <- app_assoc. reflexivity.
Qed.

(** A toggle is [setLanguage] of the other language. *)
Lemma toggleLanguage_unfold (w : World) :
  toggleLanguage isBrowser defaultTranslations w
  = setLanguage isBrowser defaultTranslations
      (if String.eqb (currentLanguage w) "de" then "en" else "de") w.
Proof. reflexivity. Qed.

Lemma call_is_setLanguage (c : Call) (w : World) :
  call isBrowser defaultTranslations c w
  = setLanguage isBrowser defaultTranslations (requested c w) w.
Proof. destruct c; reflexivity. Qed.

(** Case analysis on a complete run: nothing happened, or the run ended in
    one of the three ways above. *)
Lemma setLanguage_complete_cases (http : string → HttpResponse) (L : string)
    (w : World) (P : World * Completion unit → Prop) :
  (L = currentLanguage w → P (w, Returned tt)) →
  (L ≠ currentLanguage w → L = "de" →
   P ({| currentLanguage := "de";
         translations := defaultTranslations;
         isLoading := isLoading w;
         ambient :=
           {| localStorage := localStorage (ambient (selected isBrowser "de" w));
              effects := effects (ambient (selected isBrowser "de" w))
                         ++ [SetTranslations defaultTranslations] |} |},
      Returned tt)) →
  (∀ body, L ≠ currentLanguage w → L ≠ "de" → http (i18n_url L) = Ok body →
   P ({| currentLanguage := L;
         translations := body;
         isLoading := false;
         ambient :=
           {| localStorage := localStorage (ambient (selected isBrowser L w));
              effects := effects (ambient (selected isBrowser L w))
                         ++ [SetIsLoading true; HttpGet (i18n_url L);
                             SetTranslations body; SetIsLoading false] |} |},
      Returned tt)) →
  (∀ error, L ≠ currentLanguage w → L ≠ "de" → http (i18n_url L) = Failed error →
   P ({| currentLanguage := L;
         translations := defaultTranslations;
         isLoading := false;
         ambient :=
           {| localStorage := localStorage (ambient (selected isBrowser L w));
              effects := effects (ambient (selected isBrowser L w))
                         ++ [SetIsLoading true; HttpGet (i18n_url L);
                             ConsoleError (load_error_message L) error;
                             SetTranslations defaultTranslations;
                             SetIsLoading false] |} |},
      Returned tt)) →
  P (complete http (setLanguage isBrowser defaultTranslations L w)).
Proof.
  intros Hsame Hgerman Hfetched Hfailed.
  destruct (decide (L = currentLanguage w)) as [Heq | Hnew].
  { rewrite (setLanguage_same _ _ _ _ Heq). cbn. auto. }
  destruct (String.eqb_spec L "de") as [Hde | Hde].
  { subst L. rewrite (setLanguage_new_de http w Hnew). auto. }
  destruct (http (i18n_url L)) as [body | error] eqn:Hresp.
  - rewrite (setLanguage_new_fetched http L w body Hnew Hde Hresp). auto.
  - rewrite (setLanguage_new_failed http L w error Hnew Hde Hresp). auto.
Qed.

End Runs.

(** ** What a call does and does not do *)

(** X1: a call of [setLanguage] with a new language other than ['de']
    whose request is answered with a body is fulfilled with that body as
    the translations, the new language current and the loading flag down;
    the flag went up once and down once, and nothing was logged as an
    error. *)
Theorem setLanguage_fetched_body_is_shown (isBrowser : bool)
    (defaultTranslations : Translations) (http : string → HttpResponse)
    (L : string) (w : World) (body : Translations) :
  L ≠ currentLanguage w →
  L ≠ "de" →
  http (i18n_url L) = Ok body →
  ∃ w',
    complete http (setLanguage isBrowser defaultTranslations L w) = (w', Returned tt)
    ∧ currentLanguage w' = L
    ∧ translations w' = body
    ∧ isLoading w' = false
    ∧ loading_writes (effects (ambient w'))
      = loading_writes (effects (ambient w)) ++ [true; false]
    ∧ console_errors (effects (ambient w')) = console_errors (effects (ambient w)).
Proof.
  intros Hnew Hde Hok.
  rewrite (setLanguage_new_fetched isBrowser defaultTranslations http L w body
             Hnew Hde Hok).
  eexists. split; [reflexivity |]. cbn.
  unfold loading_writes, console_errors.
  destruct isBrowser; cbn; rewrite !omap_app; cbn; rewrite ?app_nil_r;
    repeat split.
Qed.

Lemma setLanguage_fetched_body_is_shown_witness :
  "en" ≠ currentLanguage german_service
  ∧ "en" ≠ "de"
  ∧ http_up (i18n_url "en") = Ok sample_en
  ∧ ∃ w',
      complete http_up (setLanguage true sample_de "en" german_service)
      = (w', Returned tt)
      ∧ currentLanguage w' = "en"
      ∧ translations w' = sample_en
      ∧ isLoading w' = false
      ∧ loading_writes (effects (ambient w'))
        = loading_writes (effects (ambient german_service)) ++ [true; false]
      ∧ console_errors (effects (ambient w'))
        = console_errors (effects (ambient german_service)).
Proof.
  split; [discriminate |]. split; [discriminate |]. split; [reflexivity |].
  apply (setLanguage_fetched_body_is_shown true sample_de http_up "en"
           german_service sample_en);
    [discriminate | discriminate | reflexivity].
Defined.

(** X2: when the request of such a call fails, the failure is written to
    the console exactly once, with the message that names the language and
    with the error itself, and the request is not repeated. *)
Theorem setLanguage_failure_is_logged_once (isBrowser : bool)
    (defaultTranslations : Translations) (http : string → HttpResponse)
    (L : string) (w : World) (error : HttpFailure) :
  L ≠ currentLanguage w →
  L ≠ "de" →
  http (i18n_url L) = Failed error →
  let w' := fst (complete http (setLanguage isBrowser defaultTranslations L w)) in
  console_errors (effects (ambient w'))
  = console_errors (effects (ambient w))
    ++ [("Error loading translations for language '" +:+ L +:+ "':", error)]
  ∧ fetches (effects (ambient w'))
    = fetches (effects (ambient w)) ++ ["/i18n/" +:+ L +:+ ".json"].
Proof.
  intros Hnew Hde Hfailed.
  rewrite (setLanguage_new_failed isBrowser defaultTranslations http L w error
             Hnew Hde Hfailed).
  cbn. unfold console_errors, fetches.
  destruct isBrowser; cbn; rewrite !omap_app; cbn; rewrite ?app_nil_r;
    split; reflexivity.
Qed.

Lemma setLanguage_failure_is_logged_once_witness :
  "en" ≠ currentLanguage german_service
  ∧ "en" ≠ "de"
  ∧ http_down (i18n_url "en") = Failed (NonSuccessStatus 404)
  ∧ let w' := fst (complete http_down
                     (setLanguage true sample_de "en" german_service)) in
    console_errors (effects (ambient w'))
    = console_errors (effects (ambient german_service))
      ++ [("Error loading translations for language '" +:+ "en" +:+ "':",
           NonSuccessStatus 404)]
    ∧ fetches (effects (ambient w'))
      = fetches (effects (ambient german_service))
        ++ ["/i18n/" +:+ "en" +:+ ".json"].
Proof.
  split; [discriminate |]. split; [discriminate |]. split; [reflexivity |].
  apply (setLanguage_failure_is_logged_once true sample_de http_down "en"
           german_service (NonSuccessStatus 404));
    [discriminate | discriminate | reflexivity].
Defined.

(** X3: whatever the language, the state and the responses, a complete
    call of [setLanguage] sends at most one request: none when the
    language is the current one or ['de'], and otherwise exactly the one
    for the file named after the language. *)
Theorem setLanguage_requests (isBrowser : bool)
    (defaultTranslations : Translations) (http : string → HttpResponse)
    (L : string) (w : World) :
  fetches (effects (ambient
             (fst (complete http (setLanguage isBrowser defaultTranslations L w)))))
  = fetches (effects (ambient w))
    ++ (if String.eqb L (currentLanguage w) || String.eqb L "de" then []
        else ["/i18n/" +:+ L +:+ ".json"]).
Proof.
  apply (setLanguage_complete_cases isBrowser defaultTranslations http L w
           (λ r, fetches (effects (ambient (fst r))) = _)).
  - intros ->. rewrite String.eqb_refl. cbn. symmetry. apply app_nil_r.
  - intros Hnew ->. apply String.eqb_neq in Hnew. rewrite Hnew. cbn.
    unfold fetches. destruct isBrowser; cbn; rewrite !omap_app; cbn;
      rewrite ?app_nil_r; reflexivity.
  - intros body Hnew Hde _.
    apply String.eqb_neq in Hnew, Hde. rewrite Hnew, Hde. cbn.
    unfold fetches. destruct isBrowser; cbn; rewrite !omap_app; cbn;
      rewrite ?app_nil_r; reflexivity.
  - intros error Hnew Hde _.
    apply String.eqb_neq in Hnew, Hde. rewrite Hnew, Hde. cbn.
    unfold fetches. destruct isBrowser; cbn; rewrite !omap_app; cbn;
      rewrite ?app_nil_r; reflexivity.
Qed.

(** X4: a complete call of [setLanguage] touches no key of the store but
    ['language'], and it reads neither the store nor the locale: any other
    key holds afterwards what it held before. *)
Theorem setLanguage_keeps_other_keys (isBrowser : bool)
    (defaultTranslations : Translations) (http : string → HttpResponse)
    (L : string) (w : World) (key : string) :
  key ≠ "language" →
  let w' := fst (complete http (setLanguage isBrowser defaultTranslations L w)) in
  localStorage (ambient w') !! key = localStorage (ambient w) !! key
  ∧ storage_reads (effects (ambient w')) = storage_reads (effects (ambient w))
  ∧ locale_reads (effects (ambient w')) = locale_reads (effects (ambient w)).
Proof.
  intros Hkey.
  apply (setLanguage_complete_cases isBrowser defaultTranslations http L w
           (λ r, localStorage (ambient (fst r)) !! key = _
                 ∧ storage_reads (effects (ambient (fst r))) = _
                 ∧ locale_reads (effects (ambient (fst r))) = _)).
  - intros _. repeat split.
  - intros _ _. unfold storage_reads, locale_reads.
    destruct isBrowser; cbn; rewrite !omap_app; cbn; rewrite ?app_nil_r;
      (split; [| split; reflexivity]);
      [apply lookup_insert_ne; congruence | reflexivity].
  - intros body _ _ _. unfold storage_reads, locale_reads.
    destruct isBrowser; cbn; rewrite !omap_app; cbn; rewrite ?app_nil_r;
      (split; [| split; reflexivity]);
      [apply lookup_insert_ne; congruence | reflexivity].
  - intros error _ _ _. unfold storage_reads, locale_reads.
    destruct isBrowser; cbn; rewrite !omap_app; cbn; rewrite ?app_nil_r;
      (split; [| split; reflexivity]);
      [apply lookup_insert_ne; congruence | reflexivity].
Qed.

Lemma setLanguage_keeps_other_keys_witness :
  "theme" ≠ "language"
  ∧ let w' := fst (complete http_up
                     (setLanguage true sample_de "en" german_service)) in
    localStorage (ambient w') !! "theme"
    = localStorage (ambient german_service) !! "theme"
    ∧ storage_reads (effects (ambient w'))
      = storage_reads (effects (ambient german_service))
    ∧ locale_reads (effects (ambient w'))
      = locale_reads (effects (ambient german_service)).
Proof.
  split; [discriminate |].
  apply (setLanguage_keeps_other_keys true sample_de http_up "en"
           german_service "theme").
  discriminate.
Defined.

(** X5: outside a browser [setLanguage] leaves the store alone, whatever
    language is asked for and however the load ends: the store is the same
    map afterwards and the record shows no new write. *)
Theorem setLanguage_server_never_writes_store
    (defaultTranslations : Translations) (http : string → HttpResponse)
    (L : string) (w : World) :
  localStorage (ambient
     (fst (complete http (setLanguage false defaultTranslations L w))))
  = localStorage (ambient w)
  ∧ storage_writes (effects (ambient
       (fst (complete http (setLanguage false defaultTranslations L w)))))
    = storage_writes (effects (ambient w)).
Proof.
  apply (setLanguage_complete_cases false defaultTranslations http L w
           (λ r, localStorage (ambient (fst r)) = _
                 ∧ storage_writes (effects (ambient (fst r))) = _)).
  - intros _. split; reflexivity.
  - intros _ _. unfold storage_writes. cbn. rewrite !omap_app. cbn.
    rewrite ?app_nil_r. split; reflexivity.
  - intros body _ _ _. unfold storage_writes. cbn. rewrite !omap_app. cbn.
    rewrite ?app_nil_r. split; reflexivity.
  - intros error _ _ _. unfold storage_writes. cbn. rewrite !omap_app. cbn.
    rewrite ?app_nil_r. split; reflexivity.
Qed.

(** X6: a second [setLanguage] with the same language, once the first is
    over, does nothing at all, whatever the first one met.  In particular
    a load that failed is not tried again by asking for the same language
    once more. *)
Theorem setLanguage_again_is_noop (isBrowser : bool)
    (defaultTranslations : Translations) (http : string → HttpResponse)
    (L : string) (w : World) :
  let w1 := fst (complete http (setLanguage isBrowser defaultTranslations L w)) in
  setLanguage isBrowser defaultTranslations L w1 = Settled w1 (Returned tt).
Proof.
  cbv zeta. apply setLanguage_same.
  apply (setLanguage_complete_cases isBrowser defaultTranslations http L w
           (λ r, L = currentLanguage (fst r))).
  - intros Hsame. exact Hsame.
  - intros _ Hde. exact Hde.
  - intros body _ _ _. reflexivity.
  - intros error _ _ _. reflexivity.
Qed.



(** ** Calls that overlap *)

(** X8: nothing orders two calls that overlap.  Let [setLanguage(L)] wait
    for its request and let [setLanguage('de')] be called meanwhile: the
    second call settles at once with German current and the default
    translations, but the loading flag stays up; when the response to the
    first call arrives, its body replaces the translations although
    German is still the current language. *)
Theorem setLanguage_late_response_overwrites (isBrowser : bool)
    (defaultTranslations : Translations) (L : string) (w : World)
    (body : Translations) :
  L ≠ currentLanguage w →
  L ≠ "de" →
  ∃ ws k w2 w3,
    setLanguage isBrowser defaultTranslations L w = Suspended ws (i18n_url L) k
    ∧ setLanguage isBrowser defaultTranslations "de" ws = Settled w2 (Returned tt)
    ∧ currentLanguage w2 = "de"
    ∧ translations w2 = defaultTranslations
    ∧ isLoading w2 = true
    ∧ k (Ok body) w2 = Settled w3 (Returned tt)
    ∧ currentLanguage w3 = "de"
    ∧ translations w3 = body
    ∧ isLoading w3 = false.
Proof.
  intros Hnew Hde.
  rewrite (setLanguage_new _ _ _ _ Hnew).
  destruct (loadTranslations_remote defaultTranslations L
              (selected isBrowser L w) Hde) as (k & Hk & Hthen & _).
  rewrite Hk. eexists. exists k.
  assert (Hback : "de" ≠ L) by congruence.
  eexists. eexists. split; [reflexivity |].
  split.
  { rewrite setLanguage_new by (cbn; exact Hback).
    rewrite loadTranslations_de. reflexivity. }
  split; [reflexivity |]. split; [reflexivity |]. split; [reflexivity |].
  split; [apply Hthen |]. repeat split.
Qed.

Lemma setLanguage_late_response_overwrites_witness :
  "en" ≠ currentLanguage german_service
  ∧ "en" ≠ "de"
  ∧ ∃ ws k w2 w3,
      setLanguage true sample_de "en" german_service
      = Suspended ws (i18n_url "en") k
      ∧ setLanguage true sample_de "de" ws = Settled w2 (Returned tt)
      ∧ currentLanguage w2 = "de"
      ∧ translations w2 = sample_de
      ∧ isLoading w2 = true
      ∧ k (Ok sample_en) w2 = Settled w3 (Returned tt)
      ∧ currentLanguage w3 = "de"
      ∧ translations w3 = sample_en
      ∧ isLoading w3 = false.
Proof.
  split; [discriminate |]. split; [discriminate |].
  apply (setLanguage_late_response_overwrites true sample_de "en"
           german_service sample_en);
    discriminate.
Defined.

(** X9: two clicks on the button of the test component while German is
    current, the second before the response to the first has come.  The
    first click leaves the request for English out; the second finds
    English current and goes back to German without a request; the
    response then puts the English texts under the German selection,
    or on failure the default ones, and lowers the flag. *)
Theorem TestComponent_double_click (isBrowser : bool)
    (defaultTranslations : Translations) (w : World) (resp : HttpResponse) :
  currentLanguage w = "de" →
  ∃ ws k w2 w3,
    TestComponent_toggleLanguage isBrowser defaultTranslations w
    = Suspended ws "/i18n/en.json" k
    ∧ currentLanguage ws = "en"
    ∧ TestComponent_toggleLanguage isBrowser defaultTranslations ws
      = Settled w2 (Returned tt)
    ∧ fetches (effects (ambient w2)) = fetches (effects (ambient w)) ++ ["/i18n/en.json"]
    ∧ k resp w2 = Settled w3 (Returned tt)
    ∧ currentLanguage w3 = "de"
    ∧ translations w3
      = match resp with Ok body => body | Failed _ => defaultTranslations end
    ∧ isLoading w3 = false.
Proof.
  intros Hgerman.
  unfold TestComponent_toggleLanguage.
  rewrite toggleLanguage_unfold, Hgerman. cbn [String.eqb Ascii.eqb Bool.eqb].
  assert (Hnew : "en" ≠ currentLanguage w) by (rewrite Hgerman; discriminate).
  rewrite (setLanguage_new _ _ _ _ Hnew).
  destruct (loadTranslations_remote defaultTranslations "en"
              (selected isBrowser "en" w)) as (k & Hk & Hthen & Hcatch);
    [discriminate |].
  rewrite Hk.
  destruct resp as [body | error]; eexists; exists k; eexists; eexists;
    (split; [reflexivity |]); (split; [reflexivity |]);
    (split;
     [rewrite toggleLanguage_unfold; cbn [currentLanguage];
      cbn [String.eqb Ascii.eqb Bool.eqb];
      rewrite setLanguage_new by (cbn; discriminate);
      rewrite loadTranslations_de; reflexivity |]);
    (split;
     [unfold fetches; destruct isBrowser; cbn; rewrite !omap_app; cbn;
      rewrite ?app_nil_r; reflexivity |]);
    (split; [first [apply Hthen | apply Hcatch] |]);
    repeat split.
Qed.

Lemma TestComponent_double_click_witness :
  currentLanguage german_service = "de"
  ∧ ∃ ws k w2 w3,
      TestComponent_toggleLanguage true sample_de german_service
      = Suspended ws "/i18n/en.json" k
      ∧ currentLanguage ws = "en"
      ∧ TestComponent_toggleLanguage true sample_de ws = Settled w2 (Returned tt)
      ∧ fetches (effects (ambient w2))
        = fetches (effects (ambient german_service)) ++ ["/i18n/en.json"]
      ∧ k (Ok sample_en) w2 = Settled w3 (Returned tt)
      ∧ currentLanguage w3 = "de"
      ∧ translations w3 = sample_en
      ∧ isLoading w3 = false.
Proof.
  split; [reflexivity |].
  apply (TestComponent_double_click true sample_de german_service (Ok sample_en)).
  reflexivity.
Defined.

(** ** Construction *)

(** [getInitialLanguage] only reads: the store it hands back is the one it
    was given, and no write is recorded. *)
Lemma getInitialLanguage_only_reads (isBrowser : bool)
    (navigator_language : string) (amb : Ambient) :
  localStorage (snd (getInitialLanguage isBrowser navigator_language amb))
  = localStorage amb
  ∧ storage_writes
      (effects (snd (getInitialLanguage isBrowser navigator_language amb)))
    = storage_writes (effects amb)
  ∧ fetches (effects (snd (getInitialLanguage isBrowser navigator_language amb)))
    = fetches (effects amb).
Proof.
  unfold getInitialLanguage, localStorage_getItem, storage_writes, fetches.
  destruct isBrowser; cbn [negb]; [| repeat split].
  destruct (localStorage amb !! "language") as [s |];
    [destruct (String.eqb s "") |];
    try destruct (includes SUPPORTED_LANGUAGES (slice_prefix 2 navigator_language));
    cbn; rewrite ?omap_app; cbn; rewrite ?app_nil_r; repeat split.
Qed.

(** How the load started by the constructor ends. *)
Lemma loadTranslations_completes (defaultTranslations : Translations)
    (http : string → HttpResponse) (lang : string) (w : World) :
  ∃ w',
    complete http (loadTranslations defaultTranslations lang w) = (w', Returned tt)
    ∧ currentLanguage w' = currentLanguage w
    ∧ translations w' = loaded_bundle defaultTranslations http lang
    ∧ isLoading w' = (if String.eqb lang "de" then isLoading w else false).
Proof.
  unfold loaded_bundle.
  destruct (String.eqb_spec lang "de") as [-> | Hde].
  - rewrite loadTranslations_de. eexists. repeat split.
  - destruct (loadTranslations_remote defaultTranslations lang w Hde)
      as (k & Hk & Hthen & Hcatch).
    rewrite Hk. cbn [complete].
    destruct (http (i18n_url lang)) as [body | error].
    + rewrite Hthen. eexists. repeat split.
    + rewrite Hcatch. eexists. repeat split.
Qed.

(** X10: what is on the screen when the constructor returns, on every
    platform, for every store and locale: the default translations, with
    the loading flag up exactly when the initial language is not ['de'];
    the store has not been written. *)
Theorem construction_shows_default_translations (isBrowser : bool)
    (navigator_language : string) (defaultTranslations : Translations)
    (amb : Ambient) :
  let w := world_of (new_TranslationService isBrowser navigator_language
                       defaultTranslations amb) in
  translations w = defaultTranslations
  ∧ currentLanguage w = fst (getInitialLanguage isBrowser navigator_language amb)
  ∧ isLoading w = negb (String.eqb (currentLanguage w) "de")
  ∧ localStorage (ambient w) = localStorage amb
  ∧ storage_writes (effects (ambient w)) = storage_writes (effects amb).
Proof.
  cbv zeta. unfold new_TranslationService.
  destruct (getInitialLanguage_only_reads isBrowser navigator_language amb)
    as (Hstore & Hwrites & _).
  destruct (getInitialLanguage isBrowser navigator_language amb) as [lang amb1].
  cbn [fst snd] in *.
  destruct (String.eqb_spec lang "de") as [-> | Hde].
  - rewrite loadTranslations_de. cbn. unfold storage_writes in *.
    rewrite omap_app. cbn. rewrite app_nil_r. repeat split; assumption.
  - destruct (loadTranslations_remote defaultTranslations lang
                {| currentLanguage := lang; translations := defaultTranslations;
                   isLoading := false; ambient := amb1 |} Hde)
      as (k & Hk & _).
    rewrite Hk. cbn. apply String.eqb_neq in Hde. rewrite Hde.
    unfold storage_writes in *. rewrite omap_app. cbn. rewrite app_nil_r.
    repeat split; assumption.
Qed.

(** X11: the load started by the constructor always ends, and never with
    an exception: whatever the platform, the store, the locale and the
    response, the service comes to rest in its initial language with the
    loading flag down, showing the body that was fetched, or the default
    translations for ['de'] and after a failure. *)
Theorem construction_comes_to_rest (isBrowser : bool)
    (navigator_language : string) (defaultTranslations : Translations)
    (http : string → HttpResponse) (amb : Ambient) :
  ∃ w,
    complete http (new_TranslationService isBrowser navigator_language
                     defaultTranslations amb)
    = (w, Returned tt)
    ∧ currentLanguage w = fst (getInitialLanguage isBrowser navigator_language amb)
    ∧ translations w = loaded_bundle defaultTranslations http (currentLanguage w)
    ∧ at_rest defaultTranslations w.
Proof.
  unfold new_TranslationService.
  destruct (getInitialLanguage isBrowser navigator_language amb) as [lang amb1].
  destruct (loadTranslations_completes defaultTranslations http lang
              {| currentLanguage := lang; translations := defaultTranslations;
                 isLoading := false; ambient := amb1 |})
    as (w & Hrun & Hlang & Hbundle & Hflag).
  cbn in Hlang, Hflag.
  exists w. split; [exact Hrun |]. split; [exact Hlang |].
  split; [rewrite Hlang; exact Hbundle |].
  split.
  - rewrite Hflag. destruct (String.eqb lang "de"); reflexivity.
  - intros Hgerman. rewrite Hlang in Hgerman.
    rewrite Hbundle, Hgerman. reflexivity.
Qed.

(** X12: in a browser without a usable stored language (none, or the
    empty string), a locale that begins with a supported code, with
    whatever follows it, selects that code. *)
Theorem getInitialLanguage_follows_locale (amb : Ambient) (lang region : string) :
  localStorage amb !! "language" = None
  ∨ localStorage amb !! "language" = Some "" →
  includes SUPPORTED_LANGUAGES lang = true →
  fst (getInitialLanguage true (lang +:+ region) amb) = lang.
Proof.
  intros Hstored Hsupported.
  rewrite (getInitialLanguage_locale _ _ Hstored). cbv zeta.
  assert (Hprefix : slice_prefix 2 (lang +:+ region) = lang).
  { unfold slice_prefix.
    destruct (includes_supported lang Hsupported) as [-> | ->];
      destruct region; reflexivity. }
  rewrite Hprefix, Hsupported. reflexivity.
Qed.

Lemma getInitialLanguage_follows_locale_witness :
  (localStorage fresh_browser !! "language" = None
   ∨ localStorage fresh_browser !! "language" = Some "")
  ∧ includes SUPPORTED_LANGUAGES "en" = true
  ∧ fst (getInitialLanguage true ("en" +:+ "-GB") fresh_browser) = "en".
Proof.
  split; [left; reflexivity |]. split; [reflexivity |].
  apply (getInitialLanguage_follows_locale fresh_browser "en" "-GB");
    [left; reflexivity | reflexivity].
Defined.

(** X13: without a usable stored language the initial language is always
    a supported one, on every platform and for every locale, the empty
    one and those shorter than two characters included. *)
Theorem getInitialLanguage_supported_without_store (isBrowser : bool)
    (navigator_language : string) (amb : Ambient) :
  localStorage amb !! "language" = None
  ∨ localStorage amb !! "language" = Some "" →
  includes SUPPORTED_LANGUAGES
    (fst (getInitialLanguage isBrowser navigator_language amb)) = true.
Proof.
  intros Hstored. destruct isBrowser; [| reflexivity].
  rewrite (getInitialLanguage_locale _ _ Hstored). cbv zeta.
  destruct (includes SUPPORTED_LANGUAGES (slice_prefix 2 navigator_language))
    eqn:Hlocale; [exact Hlocale | reflexivity].
Qed.

Lemma getInitialLanguage_supported_without_store_witness :
  (localStorage fresh_browser !! "language" = None
   ∨ localStorage fresh_browser !! "language" = Some "")
  ∧ includes SUPPORTED_LANGUAGES
      (fst (getInitialLanguage true "e" fresh_browser)) = true.
Proof.
  split; [left; reflexivity |].
  apply (getInitialLanguage_supported_without_store true "e" fresh_browser).
  left. reflexivity.
Defined.

(** X14: in a browser a stored language that is not empty decides alone:
    the initial language is the same for any two locales, and the locale
    is not even read. *)
Theorem getInitialLanguage_store_beats_locale (amb : Ambient) (s : string)
    (locale1 locale2 : string) :
  localStorage amb !! "language" = Some s →
  s ≠ "" →
  getInitialLanguage true locale1 amb = getInitialLanguage true locale2 amb
  ∧ fst (getInitialLanguage true locale1 amb) = s
  ∧ locale_reads (effects (snd (getInitialLanguage true locale1 amb)))
    = locale_reads (effects amb).
Proof.
  intros Hstored Hfilled.
  rewrite !(getInitialLanguage_stored _ amb s Hstored Hfilled).
  split; [reflexivity |]. split; [reflexivity |].
  cbn. unfold locale_reads. apply omap_snoc. reflexivity.
Qed.

Lemma getInitialLanguage_store_beats_locale_witness :
  localStorage (ambient english_service) !! "language" = Some "en"
  ∧ "en" ≠ ""
  ∧ getInitialLanguage true "de-DE" (ambient english_service)
    = getInitialLanguage true "fr-FR" (ambient english_service)
  ∧ fst (getInitialLanguage true "de-DE" (ambient english_service)) = "en"
  ∧ locale_reads
      (effects (snd (getInitialLanguage true "de-DE" (ambient english_service))))
    = locale_reads (effects (ambient english_service)).
Proof.
  split; [vm_compute; reflexivity |]. split; [discriminate |].
  apply (getInitialLanguage_store_beats_locale (ambient english_service) "en"
           "de-DE" "fr-FR");
    [vm_compute; reflexivity | discriminate].
Defined.

(** ** Sequences of awaited calls *)

(** One awaited call: it is fulfilled, the language asked for is current,
    and the two properties of a service at rest carry over. *)
Lemma call_completes (isBrowser : bool) (defaultTranslations : Translations)
    (http : string → HttpResponse) (c : Call) (w : World) :
  ∃ w1,
    complete http (call isBrowser defaultTranslations c w) = (w1, Returned tt)
    ∧ currentLanguage w1 = requested c w
    ∧ (at_rest defaultTranslations w → at_rest defaultTranslations w1)
    ∧ (isBrowser = true → remembered w → remembered w1).
Proof.
  rewrite call_is_setLanguage.
  apply (setLanguage_complete_cases isBrowser defaultTranslations http
           (requested c w) w
           (λ r, ∃ w1, r = (w1, Returned tt)
                       ∧ currentLanguage w1 = requested c w
                       ∧ (at_rest defaultTranslations w
                          → at_rest defaultTranslations w1)
                       ∧ (isBrowser = true → remembered w → remembered w1))).
  - intros Hsame. exists w. split; [reflexivity |].
    split; [symmetry; exact Hsame |]. split; auto.
  - intros _ Hde. eexists. split; [reflexivity |].
    split; [symmetry; exact Hde |]. split.
    + intros [Hflag _]. split; [exact Hflag | reflexivity].
    + intros -> _. unfold remembered. cbn. apply lookup_insert_eq.
  - intros body _ Hde _. eexists. split; [reflexivity |]. split; [reflexivity |].
    split.
    + intros _. split; [reflexivity |]. cbn. intros Hgerman. contradiction.
    + intros -> _. unfold remembered. cbn. apply lookup_insert_eq.
  - intros error _ _ _. eexists. split; [reflexivity |]. split; [reflexivity |].
    split.
    + intros _. split; reflexivity.
    + intros -> _. unfold remembered. cbn. apply lookup_insert_eq.
Qed.





(** X17: if the current language is supported and every [setLanguage] of
    a sequence of awaited calls is given a supported language, the current
    language is supported at the end. *)
Theorem session_keeps_language_supported (isBrowser : bool)
    (defaultTranslations : Translations)
    (calls : list (Call * (string → HttpResponse))) (w : World) :
  includes SUPPORTED_LANGUAGES (currentLanguage w) = true →
  well_typed_calls calls →
  includes SUPPORTED_LANGUAGES
    (currentLanguage (fst (session isBrowser defaultTranslations calls w))) = true.
Proof.
  revert w. induction calls as [| [c http] rest IH]; intros w Hsupported Hcalls.
  - exact Hsupported.
  - cbn [session].
    destruct (call_completes isBrowser defaultTranslations http c w)
      as (w1 & Hrun & Hlang & _).
    rewrite Hrun.
    apply Forall_cons in Hcalls. destruct Hcalls as [Hcall Hrest].
    apply IH; [| exact Hrest].
    rewrite Hlang. destruct c as [lang |]; cbn in *.
    + exact Hcall.
    + destruct (String.eqb (currentLanguage w) "de"); reflexivity.
Qed.

Lemma session_keeps_language_supported_witness :
  includes SUPPORTED_LANGUAGES (currentLanguage german_service) = true
  ∧ well_typed_calls [(CallSetLanguage "en", http_down); (CallToggleLanguage, http_up)]
  ∧ includes SUPPORTED_LANGUAGES
      (currentLanguage
         (fst (session true sample_de
                 [(CallSetLanguage "en", http_down); (CallToggleLanguage, http_up)]
                 german_service))) = true.
Proof.
  assert (Hcalls : well_typed_calls
            [(CallSetLanguage "en", http_down); (CallToggleLanguage, http_up)]).
  { repeat constructor. }
  split; [reflexivity |]. split; [exact Hcalls |].
  apply (session_keeps_language_supported true sample_de
           [(CallSetLanguage "en", http_down); (CallToggleLanguage, http_up)]
           german_service);
    [reflexivity | exact Hcalls].
Defined.

